(** * WhisperingCat: the settings schema and the two activation hooks

    A shallow embedding of [src/settings.py]: the option sets, the
    [Settings] schema with its field constraint and its two model
    validators, and the hooks [activated] and [after_cat_bootstrap]
    that configure the [LocalWhisper] collaborator. *)

From stdpp Require Import base option list strings gmap.
From Stdlib Require Import ZArith Lia Ascii.

Local Open Scope string_scope.
Local Open Scope Z_scope.

(** ** Python values and exceptions *)

(** The values a settings mapping loaded from disk can hold, with
    Python's truth-value testing. *)
Inductive PyVal :=
  | PNone
  | PBool (b : bool)
  | PInt (n : Z)
  | PStr (s : string).

#[global] Instance PyVal_eq_dec : EqDecision PyVal.
Proof. solve_decision. Defined.

(** [bool(s)] of a [str]: the empty string is the only false one. *)
Definition str_truthy (s : string) : bool :=
  match s with
  | EmptyString => false
  | String _ _ => true
  end.

Definition truthy (v : PyVal) : bool :=
  match v with
  | PNone => false
  | PBool b => b
  | PInt n => negb (n =? 0)
  | PStr s => str_truthy s
  end.

(** One entry of a pydantic [ValidationError]: a failed [ge] bound of a
    field, or a [ValueError] raised inside a model validator. *)
Inductive ErrorDetail :=
  | greater_than_equal (loc : string) (ge : Z) (input : Z)
  | value_error (msg : string).

Inductive Exception :=
  | ValueError (msg : string)
  | KeyError (key : string)
  | ValidationError (errors : list ErrorDetail)
  | ProviderError (msg : string).

(** A computation that returns or raises. *)
Inductive Exc (A : Type) :=
  | Return (a : A)
  | Raise (e : Exception).
Arguments Return {A} a.
Arguments Raise {A} e.

Definition exc_bind {A B} (m : Exc A) (k : A -> Exc B) : Exc B :=
  match m with
  | Return a => k a
  | Raise e => Raise e
  end.

(** ** Option sets *)

(** A member of the [LanguageCode] enum, which the module derives from
    the ISO language table: the name is the upper-case two-letter code,
    the value the lower-case one. *)
Record LanguageCode := { lc_name : string; lc_value : string }.

Definition EN : LanguageCode := {| lc_name := "EN"; lc_value := "en" |}.

Inductive ModelSize :=
  | TINY | TINY_EN | BASE | BASE_EN | SMALL | SMALL_EN | MEDIUM | MEDIUM_EN
  | LARGE_V1 | LARGE_V2 | LARGE_V3 | LARGE | OTHER.

Definition ModelSize_value (m : ModelSize) : string :=
  match m with
  | TINY => "tiny"
  | TINY_EN => "tiny.en"
  | BASE => "base"
  | BASE_EN => "base.en"
  | SMALL => "small"
  | SMALL_EN => "small.en"
  | MEDIUM => "medium"
  | MEDIUM_EN => "medium.en"
  | LARGE_V1 => "large-v1"
  | LARGE_V2 => "large-v2"
  | LARGE_V3 => "large-v3"
  | LARGE => "large"
  | OTHER => "Other"
  end.

Inductive Device := CPU | CUDA | AUTO.

Definition Device_value (d : Device) : string :=
  match d with
  | CPU => "cpu"
  | CUDA => "cuda"
  | AUTO => "auto"
  end.

Inductive ComputeType :=
  | INT8 | INT8_FLOAT32 | INT8_FLOAT16 | INT8_BFLOAT16
  | INT16 | FLOAT16 | BFLOAT16 | FLOAT32.

Definition ComputeType_value (c : ComputeType) : string :=
  match c with
  | INT8 => "int8"
  | INT8_FLOAT32 => "int8_float32"
  | INT8_FLOAT16 => "int8_float16"
  | INT8_BFLOAT16 => "int8_bfloat16"
  | INT16 => "int16"
  | FLOAT16 => "float16"
  | BFLOAT16 => "bfloat16"
  | FLOAT32 => "float32"
  end.

#[global] Instance LanguageCode_eq_dec : EqDecision LanguageCode.
Proof. solve_decision. Defined.
#[global] Instance ModelSize_eq_dec : EqDecision ModelSize.
Proof. solve_decision. Defined.
#[global] Instance Device_eq_dec : EqDecision Device.
Proof. solve_decision. Defined.
#[global] Instance ComputeType_eq_dec : EqDecision ComputeType.
Proof. solve_decision. Defined.

(** ** The Settings record *)

(** Modelled from the spec: pydantic's [SecretStr], the type of the
    [api_key] field, which the sources import and do not define; the
    spec calls the api-key a secret string, redacted in any
    representation. What the attribute holds: a value given in the
    payload is wrapped into a [SecretStr]; the declared default is the
    plain [str] of the [Field], which pydantic stores without validating
    it. *)
Inductive ApiKey :=
  | PlainStr (s : string)
  | SecretStr (secret_value : string).

(** Modelled from the spec: [SecretStr.get_secret_value], the one way
    to read the secret back; on the plain default it is the string. *)
Definition get_secret_value (k : ApiKey) : string :=
  match k with
  | PlainStr s => s
  | SecretStr s => s
  end.

(** Modelled from the spec: the truth value of a secret string,
    [bool(self.api_key)]; both [str] and [SecretStr] are false exactly
    when they have length zero. *)
Definition ApiKey_truthy (k : ApiKey) : bool := str_truthy (get_secret_value k).

(** Modelled from the spec: the redaction of a secret string, which is
    pydantic's [SecretStr._display]: a fixed mask of ten asterisks in
    place of a secret that is not empty, and nothing for the empty
    one. *)
Definition secret_mask : string := "**********".

(** Modelled from the spec: [SecretStr._display], see [secret_mask]. *)
Definition SecretStr_display (secret_value : string) : string :=
  if str_truthy secret_value then secret_mask else EmptyString.

(** Modelled from the spec: [repr] of a [SecretStr], as it appears in
    the [repr] of the record: the class name around the redacted text. *)
Definition SecretStr_repr (secret_value : string) : string :=
  "SecretStr('" +:+ SecretStr_display secret_value +:+ "')".

(** Modelled from the spec: [str(k)] of the attribute, which is also
    what the JSON serialisation of a [SecretStr] writes. *)
Definition ApiKey_str (k : ApiKey) : string :=
  match k with
  | PlainStr s => s
  | SecretStr s => SecretStr_display s
  end.

(** [needle in hay] on Python strings. *)
Fixpoint contains (hay needle : string) : bool :=
  String.prefix needle hay ||
  match hay with
  | EmptyString => false
  | String _ rest => contains rest needle
  end.

Record Settings := {
  language : LanguageCode;
  use_local_model : bool;
  api_key : ApiKey;
  w_model_size : ModelSize;
  device : Device;
  n_workers : Z;
  compute_type : ComputeType;
  w_model_path_or_id : string;
}.

(** A configuration payload: for each field of the schema either no
    entry or a value of the field's declared type. *)
Record Payload := {
  given_language : option LanguageCode;
  given_use_local_model : option bool;
  given_api_key : option string;
  given_w_model_size : option ModelSize;
  given_device : option Device;
  given_n_workers : option Z;
  given_compute_type : option ComputeType;
  given_w_model_path_or_id : option string;
}.

Definition empty_payload : Payload :=
  {| given_language := None; given_use_local_model := None;
     given_api_key := None; given_w_model_size := None;
     given_device := None; given_n_workers := None;
     given_compute_type := None; given_w_model_path_or_id := None |}.

(** The record the field stage builds: the given value of a field, or
    the [default] of its [Field]. *)
Definition fields_of (p : Payload) : Settings :=
  {| language := default EN (given_language p);
     use_local_model := default true (given_use_local_model p);
     api_key := match given_api_key p with
                | Some s => SecretStr s
                | None => PlainStr EmptyString
                end;
     w_model_size := default BASE (given_w_model_size p);
     device := default AUTO (given_device p);
     n_workers := default 1 (given_n_workers p);
     compute_type := default FLOAT32 (given_compute_type p);
     w_model_path_or_id := default EmptyString (given_w_model_path_or_id p) |}.

(** The per-field checks. [n_workers] carries [ge=1]; it is checked on a
    given value only. *)
Definition field_errors (p : Payload) : list ErrorDetail :=
  match given_n_workers p with
  | Some n => if n <? 1 then [greater_than_equal "n_workers" 1 n] else []
  | None => []
  end.

Definition validate_fields (p : Payload) : Exc Settings :=
  match field_errors p with
  | [] => Return (fields_of p)
  | errs => Raise (ValidationError errs)
  end.

Definition model_path_required : string :=
  "Custom Model Path is required when 'Other' is selected in Model Size".

Definition api_key_required : string :=
  "OpenAI API Key is required for online mode".

Definition validate_model_path_or_id (self : Settings) : Exc Settings :=
  if bool_decide (w_model_size self = OTHER) && negb (str_truthy (w_model_path_or_id self))
  then Raise (ValueError model_path_required)
  else Return self.

Definition validate_api_key (self : Settings) : Exc Settings :=
  if negb (use_local_model self) && negb (ApiKey_truthy (api_key self))
  then Raise (ValueError api_key_required)
  else Return self.

(** [@model_validator(mode="after")]: the validator runs on the record
    the inner stage returned; a [ValueError] it raises ends the
    construction as a [ValidationError] with that one entry. *)
Definition model_validator_after (f : Settings -> Exc Settings)
    (inner : Exc Settings) : Exc Settings :=
  exc_bind inner (fun self =>
    match f self with
    | Raise (ValueError msg) => Raise (ValidationError [value_error msg])
    | r => r
    end).

(** Construction of a [Settings] from a payload: the fields, then the
    two validators in the order of their definition. *)
Definition Settings_construct (p : Payload) : Exc Settings :=
  model_validator_after validate_api_key
    (model_validator_after validate_model_path_or_id
      (validate_fields p)).

(** ** The activation hooks *)

(** A [pathlib] path: a path built from a string, or a path extended by
    one child with the [/] operator. *)
Inductive PyPath :=
  | Path (s : string)
  | PathDiv (parent : PyPath) (child : string).

(** What the hooks do to their collaborators, in order. *)
Inductive Event :=
  | SetDownloadPath (p : PyPath)
  | LoadSettings
  | GetInstance (settings : gmap string PyVal).

(** The [LocalWhisper] class attribute [download_path] and the calls
    made so far. *)
Record World := {
  download_path : option PyPath;
  events : list Event;
}.

(** A plugin as the hooks see it: its [path] and what its
    [load_settings()] yields, a mapping or nothing. *)
Record Plugin := {
  path : string;
  load_settings : option (gmap string PyVal);
}.

(** The registry of the host; [get_plugin()] called from this module
    resolves to the plugin the module belongs to. *)
Record MadHatter := { get_plugin : Plugin }.

Record Cat := { mad_hatter : MadHatter }.

(** A hook runs on the world and returns or raises; what it did before
    raising stays done. *)
Definition Hook (A : Type) : Type := World -> World * Exc A.

Definition ret {A} (a : A) : Hook A := fun w => (w, Return a).

Definition raise {A} (e : Exception) : Hook A := fun w => (w, Raise e).

Definition bind {A B} (m : Hook A) (k : A -> Hook B) : Hook B :=
  fun w =>
    match m w with
    | (w', Return a) => k a w'
    | (w', Raise e) => (w', Raise e)
    end.

Notation "x <- m ;; k" := (bind m (fun x => k))
  (at level 100, m at next level, right associativity).
Notation "m ;;; k" := (bind m (fun _ => k))
  (at level 100, right associativity).

Definition set_download_path (p : PyPath) : Hook unit :=
  fun w => ({| download_path := Some p;
               events := events w ++ [SetDownloadPath p] |}, Return tt).

Definition call_load_settings (pl : Plugin) : Hook (option (gmap string PyVal)) :=
  fun w => ({| download_path := download_path w;
               events := events w ++ [LoadSettings] |}, Return (load_settings pl)).

(** [settings["use_local_model"]] on the loaded mapping. *)
Definition getitem (settings : gmap string PyVal) (key : string) : Hook PyVal :=
  match settings !! key with
  | Some v => ret v
  | None => raise (KeyError key)
  end.

Section Hooks.

(** How [LocalWhisper.get_instance] ends for a given settings mapping:
    it returns an instance, which the hooks drop, or it raises. *)
Variable get_instance_outcome : gmap string PyVal -> Exc unit.

Definition get_instance (settings : gmap string PyVal) : Hook unit :=
  fun w => ({| download_path := download_path w;
               events := events w ++ [GetInstance settings] |},
            get_instance_outcome settings).

(** Both hooks end with [if settings and settings["use_local_model"]]:
    [None] and the empty mapping are false and skip the indexing; on any
    other mapping the key is indexed, which raises when it is missing,
    and the value found is tested for truth. *)
Definition activated (plugin : Plugin) : Hook unit :=
  set_download_path (PathDiv (Path (path plugin)) "models") ;;;
  settings <- call_load_settings plugin ;;
  match settings with
  | None => ret tt
  | Some settings =>
      if bool_decide (settings = ∅) then ret tt
      else
        flag <- getitem settings "use_local_model" ;;
        if truthy flag then get_instance settings else ret tt
  end.

(** [MadHatter()] is the registry singleton of the process, [cat] the
    argument of the hook. *)
Definition after_cat_bootstrap (MadHatter_ : MadHatter) (cat : Cat) : Hook unit :=
  set_download_path (PathDiv (Path (path (get_plugin MadHatter_))) "models") ;;;
  settings <- call_load_settings (get_plugin (mad_hatter cat)) ;;
  match settings with
  | None => ret tt
  | Some settings =>
      if bool_decide (settings = ∅) then ret tt
      else
        flag <- getitem settings "use_local_model" ;;
        if truthy flag then get_instance settings else ret tt
  end.

End Hooks.

(** ** How a construction can be observed *)

#[global] Instance ErrorDetail_eq_dec : EqDecision ErrorDetail.
Proof. solve_decision. Defined.

(** The exception carries the message [msg]: it is the [ValueError]
    itself, or a [ValidationError] with an entry for it. *)
Definition reports (e : Exception) (msg : string) : bool :=
  match e with
  | ValueError m => bool_decide (m = msg)
  | ValidationError errs => bool_decide (value_error msg ∈ errs)
  | _ => false
  end.

Definition fails_with {A} (r : Exc A) (msg : string) : bool :=
  match r with
  | Return _ => false
  | Raise e => reports e msg
  end.

(** The payload [p] with its [api_key] entry set to [k]. *)
Definition with_api_key (p : Payload) (k : string) : Payload :=
  {| given_language := given_language p;
     given_use_local_model := given_use_local_model p;
     given_api_key := Some k;
     given_w_model_size := given_w_model_size p;
     given_device := given_device p;
     given_n_workers := given_n_workers p;
     given_compute_type := given_compute_type p;
     given_w_model_path_or_id := given_w_model_path_or_id p |}.

(** The condition under which [validate_model_path_or_id] raises. *)
Definition violates_model_path_rule (self : Settings) : bool :=
  bool_decide (w_model_size self = OTHER) && negb (str_truthy (w_model_path_or_id self)).

(** The condition under which [validate_api_key] raises. *)
Definition violates_api_key_rule (self : Settings) : bool :=
  negb (use_local_model self) && negb (ApiKey_truthy (api_key self)).

(** A payload that selects a custom model: [w_model_size] is [OTHER],
    [w_model_path_or_id] is [model], nothing else is given. *)
Definition custom_model_payload (model : string) : Payload :=
  {| given_language := None; given_use_local_model := None;
     given_api_key := None; given_w_model_size := Some OTHER;
     given_device := None; given_n_workers := None;
     given_compute_type := None; given_w_model_path_or_id := Some model |}.

(** A payload that selects online mode: [use_local_model] is false,
    [api_key] is [key], nothing else is given. *)
Definition online_payload (key : string) : Payload :=
  {| given_language := None; given_use_local_model := Some false;
     given_api_key := Some key; given_w_model_size := None;
     given_device := None; given_n_workers := None;
     given_compute_type := None; given_w_model_path_or_id := None |}.

(** A payload that breaks both cross-field rules and, with [workers]
    below one, the bound of [n_workers] as well. *)
Definition both_rules_payload (workers : option Z) : Payload :=
  {| given_language := None; given_use_local_model := Some false;
     given_api_key := Some EmptyString; given_w_model_size := Some OTHER;
     given_device := None; given_n_workers := workers;
     given_compute_type := None;
     given_w_model_path_or_id := Some EmptyString |}.

(** The [repr] of every secret string that is not empty. *)
Definition redacted_repr : string := "SecretStr('**********')".

(** A run of [n] asterisks. *)
Fixpoint asterisks (n : nat) : string :=
  match n with
  | O => EmptyString
  | S n' => String "*"%char (asterisks n')
  end.

(** ** How a hook run can be observed *)

(** The key both hooks index the loaded mapping with. *)
Definition flag_key : string := "use_local_model".

(** The mappings [get_instance] was called with, in order. *)
Definition acquisitions (evs : list Event) : list (gmap string PyVal) :=
  omap (fun e => match e with GetInstance m => Some m | _ => None end) evs.

(** The loader yielded the non-empty mapping [m] and its flag is true. *)
Definition flag_set (loaded : option (gmap string PyVal)) (m : gmap string PyVal) : Prop :=
  loaded = Some m /\ m <> ∅ /\
  exists v, m !! flag_key = Some v /\ truthy v = true.

(** The loader yielded nothing, an empty mapping, or a mapping whose
    flag is present and false. *)
Definition flag_clear (loaded : option (gmap string PyVal)) : Prop :=
  loaded = None \/ loaded = Some ∅ \/
  exists m v, loaded = Some m /\ m !! flag_key = Some v /\ truthy v = false.

(** What is left of a hook once the download path [dir] is set and the
    settings are loaded, as one function of the loaded value. *)
Definition after_load (outcome : gmap string PyVal -> Exc unit) (dir : PyPath)
    (loaded : option (gmap string PyVal)) (w : World) : World * Exc unit :=
  let w1 := {| download_path := Some dir;
               events := events w ++ [SetDownloadPath dir; LoadSettings] |} in
  match loaded with
  | None => (w1, Return tt)
  | Some m =>
      if bool_decide (m = ∅) then (w1, Return tt)
      else match m !! flag_key with
           | None => (w1, Raise (KeyError flag_key))
           | Some v =>
               if truthy v
               then ({| download_path := Some dir;
                        events := events w1 ++ [GetInstance m] |}, outcome m)
               else (w1, Return tt)
           end
  end.

(** Sample contexts: a provider that always returns, a fresh process,
    and plugins whose saved settings lack the flag, hold it, or are
    absent. *)
Definition provider_ok : gmap string PyVal -> Exc unit := fun _ => Return tt.

Definition fresh_world : World := {| download_path := None; events := [] |}.

Definition plugin_dir : string := "/app/cat/plugins/whispering_cat".

Definition settings_without_flag : gmap string PyVal :=
  {[ "language" := PStr "en" ]}.

Definition settings_local_base : gmap string PyVal :=
  <[ "use_local_model" := PBool true ]> {[ "w_model_size" := PStr "base" ]}.

Definition plugin_with (loaded : option (gmap string PyVal)) : Plugin :=
  {| path := plugin_dir; load_settings := loaded |}.

(** ** The language table and the enums as Python sees them *)

(** [str.upper] and [str.lower] on ASCII text, the alphabet of the ISO
    639-1 codes: the letters change case, every other character stays. *)
Definition ascii_upper (c : ascii) : ascii :=
  let n := nat_of_ascii c in
  if ((97 <=? n) && (n <=? 122))%nat then ascii_of_nat (n - 32) else c.

Definition ascii_lower (c : ascii) : ascii :=
  let n := nat_of_ascii c in
  if ((65 <=? n) && (n <=? 90))%nat then ascii_of_nat (n + 32) else c.

Fixpoint upper (s : string) : string :=
  match s with
  | EmptyString => EmptyString
  | String c rest => String (ascii_upper c) (upper rest)
  end.

Fixpoint lower (s : string) : string :=
  match s with
  | EmptyString => EmptyString
  | String c rest => String (ascii_lower c) (lower rest)
  end.

(** [str.isascii]. *)
Fixpoint isascii (s : string) : bool :=
  match s with
  | EmptyString => true
  | String c rest => (nat_of_ascii c <? 128)%nat && isascii rest
  end.

(** An entry of [pycountry.languages], as far as the module reads it:
    the [alpha_2] attribute, which not every language has. *)
Record Language := { alpha_2 : option string }.

(** A Python [dict] from [str] to [str]: the items in insertion order.
    Setting a key that is present replaces its value in place, setting a
    new key appends an item. *)
Fixpoint dict_set (d : list (string * string)) (k v : string) : list (string * string) :=
  match d with
  | [] => [(k, v)]
  | (k', v') :: rest =>
      if decide (k' = k) then (k', v) :: rest else (k', v') :: dict_set rest k v
  end.

Fixpoint dict_get (d : list (string * string)) (k : string) : option string :=
  match d with
  | [] => None
  | (k', v') :: rest => if decide (k' = k) then Some v' else dict_get rest k
  end.

(** The comprehension that prepares the language codes: one item per
    language that has an [alpha_2], keyed by the upper-case code. *)
Definition language_codes (languages : list Language) : list (string * string) :=
  foldl (fun d lang =>
           match alpha_2 lang with
           | Some code => dict_set d (upper code) (lower code)
           | None => d
           end) [] languages.

(** The members [Enum("LanguageCode", language_codes, type=str)]
    declares, by name, and the attribute access [LanguageCode.NAME]:
    one member per item of the dict. This is what [Enum] does with
    names made of letters, which the upper-cased codes of a
    [letter_table] are; names of the forms [_x_] and [__x__], which
    [Enum] refuses or keeps out of the members, are outside this
    definition. *)
Definition LanguageCode_members (languages : list Language) : list LanguageCode :=
  map (fun kv => {| lc_name := kv.1; lc_value := kv.2 |}) (language_codes languages).

Definition LanguageCode_by_name (members : list LanguageCode) (name : string) : option LanguageCode :=
  find (fun m => bool_decide (lc_name m = name)) members.

(** A code made of ASCII letters and nothing else, at least one, as
    the ISO 639-1 codes are. *)
Definition ascii_letter (c : ascii) : bool :=
  let n := nat_of_ascii c in
  (((65 <=? n) && (n <=? 90)) || ((97 <=? n) && (n <=? 122)))%nat.

Fixpoint all_letters (s : string) : bool :=
  match s with
  | EmptyString => true
  | String c rest => ascii_letter c && all_letters rest
  end.

Definition letter_code (s : string) : bool := str_truthy s && all_letters s.

(** Every [alpha_2] of the table is a code made of letters. *)
Definition letter_table (languages : list Language) : bool :=
  forallb (fun lang => match alpha_2 lang with
                       | Some code => letter_code code
                       | None => true
                       end) languages.

(** Every [alpha_2] of the table is ASCII text. *)
Definition ascii_table (languages : list Language) : bool :=
  forallb (fun lang => match alpha_2 lang with
                       | Some code => isascii code
                       | None => true
                       end) languages.

(** The members of the three literal enums in definition order, and the
    lookup by value [ModelSize(v)], [Device(v)], [ComputeType(v)];
    [None] stands for the [ValueError] of a value that no member has. *)
Definition ModelSize_members : list ModelSize :=
  [TINY; TINY_EN; BASE; BASE_EN; SMALL; SMALL_EN; MEDIUM; MEDIUM_EN;
   LARGE_V1; LARGE_V2; LARGE_V3; LARGE; OTHER].

Definition Device_members : list Device := [CPU; CUDA; AUTO].

Definition ComputeType_members : list ComputeType :=
  [INT8; INT8_FLOAT32; INT8_FLOAT16; INT8_BFLOAT16; INT16; FLOAT16; BFLOAT16; FLOAT32].

Definition ModelSize_of_value (v : string) : option ModelSize :=
  find (fun m => bool_decide (ModelSize_value m = v)) ModelSize_members.

Definition Device_of_value (v : string) : option Device :=
  find (fun d => bool_decide (Device_value d = v)) Device_members.

Definition ComputeType_of_value (v : string) : option ComputeType :=
  find (fun c => bool_decide (ComputeType_value c = v)) ComputeType_members.

(** A sample of the language table: English, Italian, and a language
    without a two-letter code. *)
Definition sample_languages : list Language :=
  [ {| alpha_2 := Some "en" |}; {| alpha_2 := None |}; {| alpha_2 := Some "it" |} ].

(** ** More ways to observe a construction *)

(** Two payloads agree on every field a check reads: the mode, the
    api-key, the model size, the worker count and the custom path. *)
Definition same_checked_fields (p q : Payload) : Prop :=
  given_use_local_model p = given_use_local_model q /\
  given_api_key p = given_api_key q /\
  given_w_model_size p = given_w_model_size q /\
  given_n_workers p = given_n_workers q /\
  given_w_model_path_or_id p = given_w_model_path_or_id q.

(** The payload [p] with its [w_model_path_or_id] entry set to [model]. *)
Definition with_model_path (p : Payload) (model : string) : Payload :=
  {| given_language := given_language p;
     given_use_local_model := given_use_local_model p;
     given_api_key := given_api_key p;
     given_w_model_size := given_w_model_size p;
     given_device := given_device p;
     given_n_workers := given_n_workers p;
     given_compute_type := given_compute_type p;
     given_w_model_path_or_id := Some model |}.

(** A payload that fills every field, for a GPU set-up with a custom
    model. *)
Definition gpu_payload : Payload :=
  {| given_language := Some {| lc_name := "IT"; lc_value := "it" |};
     given_use_local_model := Some true;
     given_api_key := Some "sk-test";
     given_w_model_size := Some OTHER;
     given_device := Some CUDA;
     given_n_workers := Some 4;
     given_compute_type := Some INT8_FLOAT16;
     given_w_model_path_or_id := Some "openai/whisper-small" |}.

(** A provider that cannot load any model. *)
Definition provider_broken : gmap string PyVal -> Exc unit :=
  fun _ => Raise (ProviderError "model could not be loaded").

(** ** Construction: basic facts *)

Lemma str_truthy_false (s : string) : str_truthy s = false <-> s = EmptyString.
Proof. destruct s; simpl; split; congruence. Qed.

Lemma str_truthy_true (s : string) : str_truthy s = true <-> s <> EmptyString.
Proof. destruct s; simpl; split; congruence. Qed.

Lemma field_errors_nil (p : Payload) :
  field_errors p = [] <-> (forall n, given_n_workers p = Some n -> 1 <= n).
Proof.
  unfold field_errors. destruct (given_n_workers p) as [n|].
  - destruct (Z.ltb_spec n 1) as [Hlt|Hge]; split; intros Hyp.
    + discriminate.
    + specialize (Hyp n eq_refl). lia.
    + intros m [= <-]. lia.
    + reflexivity.
  - split; [intros _ n; discriminate | reflexivity].
Qed.

Lemma validate_fields_bad (p : Payload) (n : Z) :
  given_n_workers p = Some n -> n < 1 ->
  validate_fields p = Raise (ValidationError [greater_than_equal "n_workers" 1 n]).
Proof.
  intros Hn Hlt. unfold validate_fields, field_errors. rewrite Hn.
  destruct (Z.ltb_spec n 1); [reflexivity | lia].
Qed.

(** The two validators on a record [self] that passed the field stage:
    the first rule that is broken ends the run, alone. *)
Lemma validators_run (self : Settings) :
  model_validator_after validate_api_key
    (model_validator_after validate_model_path_or_id (Return self)) =
  if violates_model_path_rule self
  then Raise (ValidationError [value_error model_path_required])
  else if violates_api_key_rule self
  then Raise (ValidationError [value_error api_key_required])
  else Return self.
Proof.
  unfold model_validator_after, exc_bind, validate_model_path_or_id,
    validate_api_key, violates_model_path_rule, violates_api_key_rule.
  destruct (bool_decide (w_model_size self = OTHER) &&
            negb (str_truthy (w_model_path_or_id self))); [reflexivity|].
  destruct (negb (use_local_model self) && negb (ApiKey_truthy (api_key self)));
    reflexivity.
Qed.

Lemma violates_model_path_rule_true (self : Settings) :
  violates_model_path_rule self = true <->
  w_model_size self = OTHER /\ w_model_path_or_id self = EmptyString.
Proof.
  unfold violates_model_path_rule.
  rewrite andb_true_iff, bool_decide_eq_true, negb_true_iff, str_truthy_false.
  reflexivity.
Qed.

Lemma violates_api_key_rule_true (self : Settings) :
  violates_api_key_rule self = true <->
  use_local_model self = false /\ get_secret_value (api_key self) = EmptyString.
Proof.
  unfold violates_api_key_rule, ApiKey_truthy.
  rewrite andb_true_iff, !negb_true_iff, str_truthy_false.
  reflexivity.
Qed.

(** The whole construction in one equation. *)
Lemma construct_unfold (p : Payload) :
  Settings_construct p =
  match field_errors p with
  | [] =>
      if violates_model_path_rule (fields_of p)
      then Raise (ValidationError [value_error model_path_required])
      else if violates_api_key_rule (fields_of p)
      then Raise (ValidationError [value_error api_key_required])
      else Return (fields_of p)
  | errs => Raise (ValidationError errs)
  end.
Proof.
  unfold Settings_construct, validate_fields.
  destruct (field_errors p); [apply validators_run | reflexivity].
Qed.

(** A construction that succeeds returns the record of the field stage,
    and that record passes every check. *)
Lemma construct_Return_inv (p : Payload) (s : Settings) :
  Settings_construct p = Return s ->
  s = fields_of p /\ field_errors p = [] /\
  violates_model_path_rule s = false /\ violates_api_key_rule s = false.
Proof.
  rewrite construct_unfold.
  destruct (field_errors p); [|discriminate].
  destruct (violates_model_path_rule (fields_of p)) eqn:HA; [discriminate|].
  destruct (violates_api_key_rule (fields_of p)) eqn:HB; [discriminate|].
  intros Heq. injection Heq as <-. auto.
Qed.

(** A construction never ends with anything but a record or a
    [ValidationError]. *)
Lemma construct_Raise_inv (p : Payload) (e : Exception) :
  Settings_construct p = Raise e -> exists errs, e = ValidationError errs.
Proof.
  rewrite construct_unfold.
  destruct (field_errors p);
    [destruct (violates_model_path_rule (fields_of p));
     [|destruct (violates_api_key_rule (fields_of p))]|];
    intros Heq; try discriminate; injection Heq as <-; eauto.
Qed.

(** ** Construction: the claims *)

(** C4. Constructing a Settings record from the empty payload succeeds
    and yields language EN, use-local-model true, api-key the empty
    string, model-size BASE, device AUTO, worker-count 1, compute-type
    FLOAT32 and custom-model-path-or-id the empty string. *)
Theorem construct_empty_payload :
  Settings_construct empty_payload =
  Return {| language := EN; use_local_model := true;
            api_key := PlainStr EmptyString; w_model_size := BASE;
            device := AUTO; n_workers := 1; compute_type := FLOAT32;
            w_model_path_or_id := EmptyString |}.
Proof. reflexivity. Qed.

(** C5. For every payload with worker-count below 1 the construction
    fails with a ValidationError (the one entry of which is the broken
    bound of n_workers), and every record that was constructed has
    worker-count at least 1. *)
Theorem n_workers_ge_1 (p : Payload) :
  (forall n, given_n_workers p = Some n -> n < 1 ->
     Settings_construct p =
       Raise (ValidationError [greater_than_equal "n_workers" 1 n])) /\
  (forall s, Settings_construct p = Return s -> 1 <= n_workers s).
Proof.
  split.
  - intros n Hn Hlt. unfold Settings_construct.
    rewrite (validate_fields_bad p n Hn Hlt). reflexivity.
  - intros s Hs. apply construct_Return_inv in Hs as (-> & Hf & _).
    rewrite field_errors_nil in Hf. unfold fields_of; simpl.
    destruct (given_n_workers p) as [n|]; simpl; [auto | lia].
Qed.

Lemma n_workers_ge_1_witness :
  Settings_construct (both_rules_payload (Some 0)) =
    Raise (ValidationError [greater_than_equal "n_workers" 1 0]) /\
  1 <= n_workers (fields_of (online_payload "sk-test")).
Proof.
  split.
  - apply (proj1 (n_workers_ge_1 (both_rules_payload (Some 0))) 0);
      [reflexivity | lia].
  - apply (proj2 (n_workers_ge_1 (online_payload "sk-test"))). reflexivity.
Defined.

(** C2, as stated, fails: a payload with model-size OTHER, an empty
    custom path and worker-count 0 is rejected for its worker-count, and
    the error does not carry the message of rule A. *)
Lemma model_path_message_counterexample :
  ~ (forall p : Payload,
       w_model_size (fields_of p) = OTHER ->
       w_model_path_or_id (fields_of p) = EmptyString ->
       fails_with (Settings_construct p) model_path_required = true).
Proof.
  intros H.
  specialize (H {| given_language := None; given_use_local_model := None;
                   given_api_key := None; given_w_model_size := Some OTHER;
                   given_device := None; given_n_workers := Some 0;
                   given_compute_type := None;
                   given_w_model_path_or_id := Some EmptyString |}
                eq_refl eq_refl).
  vm_compute in H. discriminate H.
Qed.

(** C2, amended. Every payload with model-size OTHER and an empty custom
    path fails to construct; when its per-field checks pass, the error
    is the single message of rule A; and the payload with model-size
    OTHER, a non-empty custom path and every other field at its default
    constructs. *)
Theorem model_path_rule :
  (forall p : Payload,
     w_model_size (fields_of p) = OTHER ->
     w_model_path_or_id (fields_of p) = EmptyString ->
     (exists errs, Settings_construct p = Raise (ValidationError errs)) /\
     (field_errors p = [] ->
      Settings_construct p =
        Raise (ValidationError [value_error model_path_required]))) /\
  (forall model : string,
     model <> EmptyString ->
     Settings_construct (custom_model_payload model) =
     Return {| language := EN; use_local_model := true;
               api_key := PlainStr EmptyString; w_model_size := OTHER;
               device := AUTO; n_workers := 1; compute_type := FLOAT32;
               w_model_path_or_id := model |}).
Proof.
  split.
  - intros p Hsz Hpath.
    assert (HA : violates_model_path_rule (fields_of p) = true)
      by (apply violates_model_path_rule_true; auto).
    rewrite construct_unfold, HA.
    destruct (field_errors p); split; eauto; discriminate.
  - intros model Hne. rewrite construct_unfold. simpl.
    unfold violates_model_path_rule; simpl.
    apply str_truthy_true in Hne. rewrite Hne. reflexivity.
Qed.

Lemma model_path_rule_witness :
  Settings_construct (custom_model_payload EmptyString) =
    Raise (ValidationError [value_error model_path_required]) /\
  Settings_construct (custom_model_payload "openai/whisper-small") =
    Return {| language := EN; use_local_model := true;
              api_key := PlainStr EmptyString; w_model_size := OTHER;
              device := AUTO; n_workers := 1; compute_type := FLOAT32;
              w_model_path_or_id := "openai/whisper-small" |}.
Proof.
  split.
  - apply (proj1 model_path_rule (custom_model_payload EmptyString));
      reflexivity.
  - apply (proj2 model_path_rule "openai/whisper-small"). discriminate.
Defined.

(** C3, as stated, fails: a payload in online mode with an empty api-key
    that also selects OTHER without a custom path is rejected by rule A,
    which runs first; the error does not carry the message of rule B. *)
Lemma api_key_message_counterexample :
  ~ (forall p : Payload,
       use_local_model (fields_of p) = false ->
       get_secret_value (api_key (fields_of p)) = EmptyString ->
       fails_with (Settings_construct p) api_key_required = true).
Proof.
  intros H. specialize (H (both_rules_payload None) eq_refl eq_refl).
  vm_compute in H. discriminate H.
Qed.

(** C3, amended. Every payload with use-local-model false and an empty
    api-key fails to construct; when its per-field checks pass and rule A
    is not broken, the error is the single message of rule B; and the
    payload with use-local-model false, a non-empty api-key and every
    other field at its default constructs. *)
Theorem api_key_rule :
  (forall p : Payload,
     use_local_model (fields_of p) = false ->
     get_secret_value (api_key (fields_of p)) = EmptyString ->
     (exists errs, Settings_construct p = Raise (ValidationError errs)) /\
     (field_errors p = [] ->
      violates_model_path_rule (fields_of p) = false ->
      Settings_construct p =
        Raise (ValidationError [value_error api_key_required]))) /\
  (forall key : string,
     key <> EmptyString ->
     Settings_construct (online_payload key) =
     Return {| language := EN; use_local_model := false;
               api_key := SecretStr key; w_model_size := BASE;
               device := AUTO; n_workers := 1; compute_type := FLOAT32;
               w_model_path_or_id := EmptyString |}).
Proof.
  split.
  - intros p Hu Hk.
    assert (HB : violates_api_key_rule (fields_of p) = true)
      by (apply violates_api_key_rule_true; auto).
    rewrite construct_unfold, HB.
    destruct (field_errors p); [|split; [eauto | discriminate]].
    destruct (violates_model_path_rule (fields_of p)); split; eauto;
      intros _ Hno; first [discriminate Hno | reflexivity].
  - intros key Hne. rewrite construct_unfold. simpl.
    unfold violates_model_path_rule, violates_api_key_rule, ApiKey_truthy; simpl.
    apply str_truthy_true in Hne. rewrite Hne. reflexivity.
Qed.

Lemma api_key_rule_witness :
  Settings_construct (online_payload EmptyString) =
    Raise (ValidationError [value_error api_key_required]) /\
  Settings_construct (online_payload "sk-test") =
    Return {| language := EN; use_local_model := false;
              api_key := SecretStr "sk-test"; w_model_size := BASE;
              device := AUTO; n_workers := 1; compute_type := FLOAT32;
              w_model_path_or_id := EmptyString |}.
Proof.
  split.
  - apply (proj1 api_key_rule (online_payload EmptyString)); reflexivity.
  - apply (proj2 api_key_rule "sk-test"). discriminate.
Defined.

(** C6, as stated, fails: a payload that breaks both cross-field rules
    and has worker-count 0 is rejected for its worker-count before the
    cross-field rules run; the error does not carry the message of
    rule A. *)
Lemma both_rules_counterexample :
  ~ (forall p : Payload,
       violates_model_path_rule (fields_of p) = true ->
       violates_api_key_rule (fields_of p) = true ->
       fails_with (Settings_construct p) model_path_required = true).
Proof.
  intros H. specialize (H (both_rules_payload (Some 0)) eq_refl eq_refl).
  vm_compute in H. discriminate H.
Qed.

(** C6, amended. For every payload that passes the per-field checks and
    breaks both cross-field rules, the construction fails with exactly
    one error entry, the message of rule A; the message of rule B is not
    reported. *)
Theorem both_rules_first_only (p : Payload) :
  field_errors p = [] ->
  violates_model_path_rule (fields_of p) = true ->
  violates_api_key_rule (fields_of p) = true ->
  Settings_construct p =
    Raise (ValidationError [value_error model_path_required]) /\
  fails_with (Settings_construct p) api_key_required = false.
Proof.
  intros Hf HA _. rewrite construct_unfold, Hf, HA. split; reflexivity.
Qed.

Lemma both_rules_first_only_witness :
  Settings_construct (both_rules_payload None) =
    Raise (ValidationError [value_error model_path_required]) /\
  fails_with (Settings_construct (both_rules_payload None)) api_key_required
    = false.
Proof.
  apply (both_rules_first_only (both_rules_payload None)); reflexivity.
Defined.

(** ** Redaction of the api-key *)

Lemma prefix_asterisks (n : nat) (k : string) :
  String.prefix k (asterisks n) = true ->
  exists m, (m <= n)%nat /\ k = asterisks m.
Proof.
  revert k. induction n as [|n IH]; intros k; simpl.
  - destruct k; [exists 0%nat; auto | discriminate].
  - destruct k as [|a k]; [exists 0%nat; split; [lia | reflexivity]|].
    simpl. destruct (ascii_dec a "*") as [->|]; [|discriminate].
    intros H. destruct (IH _ H) as (m & Hm & ->).
    exists (S m). split; [lia | reflexivity].
Qed.

Lemma asterisks_prefix (m n : nat) :
  (m <= n)%nat -> String.prefix (asterisks m) (asterisks n) = true.
Proof.
  revert n. induction m as [|m IH]; intros n Hle; simpl.
  - destruct n; reflexivity.
  - destruct n as [|n]; [lia|]. simpl.
    destruct (ascii_dec "*" "*"); [apply IH; lia | congruence].
Qed.

Lemma contains_prefix (hay needle : string) :
  String.prefix needle hay = true -> contains hay needle = true.
Proof. intros H. destruct hay; simpl in *; rewrite H; reflexivity. Qed.

(** What a run of asterisks contains: the shorter runs and nothing else. *)
Lemma contains_asterisks (n : nat) (k : string) :
  contains (asterisks n) k = true <->
  exists m, (m <= n)%nat /\ k = asterisks m.
Proof.
  split.
  - induction n as [|n IH]; cbn [asterisks contains]; intros H.
    + rewrite orb_false_r in H. by apply (prefix_asterisks 0).
    + apply orb_true_iff in H as [H|H].
      * by apply (prefix_asterisks (S n)).
      * destruct (IH H) as (m & Hm & ->). exists m. split; [lia | reflexivity].
  - intros (m & Hm & ->). apply contains_prefix. by apply asterisks_prefix.
Qed.

Lemma secret_mask_asterisks : secret_mask = asterisks 10.
Proof. reflexivity. Qed.

(** C9, as stated, fails: the api-key of a record built with the secret
    [*] is shown as the mask, and the mask contains that secret. *)
Lemma api_key_redaction_counterexample :
  ~ (forall (p : Payload) (k : string) (s : Settings),
       k <> EmptyString ->
       Settings_construct (with_api_key p k) = Return s ->
       contains (ApiKey_str (api_key s)) k = false).
Proof.
  intros H.
  specialize (H empty_payload "*" (fields_of (with_api_key empty_payload "*"))).
  assert (Hc : contains secret_mask "*" = false)
    by (apply H; [discriminate | reflexivity]).
  vm_compute in Hc. discriminate Hc.
Qed.

Lemma prefix_length (k h : string) :
  String.prefix k h = true -> (String.length k <= String.length h)%nat.
Proof.
  revert h. induction k as [|a k IH]; intros h; simpl; [lia|].
  destruct h as [|b h]; simpl; [discriminate|].
  destruct (ascii_dec a b); [|discriminate].
  intros H. apply IH in H. lia.
Qed.

(** A text does not contain a longer one. *)
Lemma contains_length (hay needle : string) :
  contains hay needle = true ->
  (String.length needle <= String.length hay)%nat.
Proof.
  induction hay as [|c hay IH]; cbn [contains]; intros H.
  - rewrite orb_false_r in H. by apply prefix_length in H.
  - apply orb_true_iff in H as [H|H].
    + by apply prefix_length in H.
    + apply IH in H. cbn [String.length]. lia.
Qed.

(** C9, amended. For two valid payloads that differ only in their
    non-empty api-key, the records hold the keys as secret strings, and
    each representation of the field is the same fixed text for both,
    whatever the secrets: the mask of ten asterisks for [str] and JSON,
    the mask inside the class name for [repr]. A representation contains
    the raw secret only when the secret is itself part of that fixed
    text, which for [str] and JSON means a run of one to ten asterisks,
    and never when the secret is longer than the text. *)
Theorem api_key_redacted (p : Payload) (k1 k2 : string) (s1 s2 : Settings) :
  k1 <> EmptyString -> k2 <> EmptyString ->
  Settings_construct (with_api_key p k1) = Return s1 ->
  Settings_construct (with_api_key p k2) = Return s2 ->
  api_key s1 = SecretStr k1 /\ api_key s2 = SecretStr k2 /\
  ApiKey_str (api_key s1) = secret_mask /\
  ApiKey_str (api_key s2) = secret_mask /\
  SecretStr_repr k1 = redacted_repr /\
  SecretStr_repr k2 = redacted_repr /\
  (contains (ApiKey_str (api_key s1)) k1 = true <->
   exists n, (1 <= n <= 10)%nat /\ k1 = asterisks n) /\
  (contains (SecretStr_repr k1) k1 = true <->
   contains redacted_repr k1 = true) /\
  ((23 < String.length k1)%nat ->
   contains (ApiKey_str (api_key s1)) k1 = false /\
   contains (SecretStr_repr k1) k1 = false).
Proof.
  intros Hk1 Hk2 H1 H2.
  apply construct_Return_inv in H1 as (-> & _).
  apply construct_Return_inv in H2 as (-> & _).
  pose proof (proj2 (str_truthy_true k1) Hk1) as T1.
  pose proof (proj2 (str_truthy_true k2) Hk2) as T2.
  cbn [fields_of with_api_key api_key given_api_key ApiKey_str].
  assert (R1 : SecretStr_repr k1 = redacted_repr)
    by (unfold SecretStr_repr, SecretStr_display; by rewrite T1).
  assert (R2 : SecretStr_repr k2 = redacted_repr)
    by (unfold SecretStr_repr, SecretStr_display; by rewrite T2).
  assert (M1 : SecretStr_display k1 = secret_mask)
    by (unfold SecretStr_display; by rewrite T1).
  assert (M2 : SecretStr_display k2 = secret_mask)
    by (unfold SecretStr_display; by rewrite T2).
  rewrite R1, M1, M2.
  split_and!; try done.
  - rewrite secret_mask_asterisks, contains_asterisks. split.
    + intros (m & Hm & ->). exists m. split; [|reflexivity].
      destruct m; [exfalso; by apply Hk1 | lia].
    + intros (n & Hn & ->). exists n. split; [lia | reflexivity].
  - intros Hlen. split.
    + destruct (contains secret_mask k1) eqn:Hc; [|done].
      apply contains_length in Hc. simpl in Hc. lia.
    + destruct (contains redacted_repr k1) eqn:Hc; [|done].
      apply contains_length in Hc. simpl in Hc. lia.
Qed.

Lemma api_key_redacted_witness :
  (ApiKey_str (api_key (fields_of (online_payload "sk-one"))) = secret_mask /\
   ApiKey_str (api_key (fields_of (online_payload "sk-two"))) = secret_mask) /\
  contains (SecretStr_repr "sk-0123456789abcdefghijklmnop")
    "sk-0123456789abcdefghijklmnop" = false.
Proof.
  split.
  - destruct (api_key_redacted (online_payload "x") "sk-one" "sk-two"
                (fields_of (online_payload "sk-one"))
                (fields_of (online_payload "sk-two")))
      as (_ & _ & Ha & Hb & _);
      [discriminate | discriminate | reflexivity | reflexivity | ].
    split; [exact Ha | exact Hb].
  - destruct (api_key_redacted (online_payload "x")
                "sk-0123456789abcdefghijklmnop" "sk-two"
                (fields_of (online_payload "sk-0123456789abcdefghijklmnop"))
                (fields_of (online_payload "sk-two")))
      as (_ & _ & _ & _ & _ & _ & _ & _ & Hlong);
      [discriminate | discriminate | reflexivity | reflexivity | ].
    apply Hlong. simpl. lia.
Defined.

(** ** The hooks: basic facts *)

Lemma activated_unfold outcome (pl : Plugin) (w : World) :
  activated outcome pl w =
  after_load outcome (PathDiv (Path (path pl)) "models") (load_settings pl) w.
Proof.
  unfold activated, after_load, bind, set_download_path, call_load_settings.
  cbn -[bool_decide]. rewrite <- app_assoc. cbn -[bool_decide].
  destruct (load_settings pl) as [m|]; [|reflexivity].
  case_bool_decide; [reflexivity|].
  unfold getitem, flag_key, ret, raise, get_instance.
  destruct (m !! "use_local_model") as [v|]; [|reflexivity].
  cbn. destruct (truthy v); reflexivity.
Qed.

Lemma after_cat_bootstrap_unfold outcome (mh : MadHatter) (cat : Cat) (w : World) :
  after_cat_bootstrap outcome mh cat w =
  after_load outcome (PathDiv (Path (path (get_plugin mh))) "models")
    (load_settings (get_plugin (mad_hatter cat))) w.
Proof.
  unfold after_cat_bootstrap, after_load, bind, set_download_path,
    call_load_settings.
  cbn -[bool_decide]. rewrite <- app_assoc. cbn -[bool_decide].
  destruct (load_settings (get_plugin (mad_hatter cat))) as [m|]; [|reflexivity].
  case_bool_decide; [reflexivity|].
  unfold getitem, flag_key, ret, raise, get_instance.
  destruct (m !! "use_local_model") as [v|]; [|reflexivity].
  cbn. destruct (truthy v); reflexivity.
Qed.

(** The run after the load, case by case. *)
Lemma after_load_cases outcome (dir : PyPath)
    (loaded : option (gmap string PyVal)) (w : World) :
  let w1 := {| download_path := Some dir;
               events := events w ++ [SetDownloadPath dir; LoadSettings] |} in
  (flag_clear loaded /\ after_load outcome dir loaded w = (w1, Return tt)) \/
  (exists m, loaded = Some m /\ m <> ∅ /\ m !! flag_key = None /\
     after_load outcome dir loaded w = (w1, Raise (KeyError flag_key))) \/
  (exists m, flag_set loaded m /\
     after_load outcome dir loaded w =
       ({| download_path := Some dir;
           events := events w ++ [SetDownloadPath dir; LoadSettings; GetInstance m] |},
        outcome m)).
Proof.
  intros w1. unfold after_load. fold w1.
  destruct loaded as [m|]; [|left; split; [left|]; reflexivity].
  case_bool_decide as Hm.
  { subst m. left. split; [right; left|]; reflexivity. }
  destruct (m !! flag_key) as [v|] eqn:Hv.
  - destruct (truthy v) eqn:Ht.
    + right; right. exists m. split; [by repeat split; eauto|].
      subst w1. cbn. rewrite <- app_assoc. reflexivity.
    + left. split; [|reflexivity]. right; right. eauto.
  - right; left. exists m. auto.
Qed.

Lemma flag_set_not_clear (loaded : option (gmap string PyVal)) (m : gmap string PyVal) :
  flag_set loaded m -> ~ flag_clear loaded.
Proof.
  intros (-> & Hne & v & Hv & Ht) [H|[H|(m' & v' & H & Hv' & Ht')]].
  - discriminate.
  - injection H as ->. by apply Hne.
  - injection H as <-. congruence.
Qed.

Lemma flag_set_unique (loaded : option (gmap string PyVal)) (m1 m2 : gmap string PyVal) :
  flag_set loaded m1 -> flag_set loaded m2 -> m1 = m2.
Proof. intros (H1 & _) (H2 & _). congruence. Qed.

(** ** The hooks: the claims *)

(** C1, as stated, fails: when the loader yields a non-empty mapping
    without the flag, the flag is not true, yet the hook does not return
    silently. *)
Lemma activated_silent_skip_counterexample :
  ~ (forall outcome (pl : Plugin) (w : World),
       (forall m, ~ flag_set (load_settings pl) m) ->
       (activated outcome pl w).2 = Return tt).
Proof.
  intros H.
  specialize (H provider_ok (plugin_with (Some settings_without_flag)) fresh_world).
  assert (Hr : (activated provider_ok (plugin_with (Some settings_without_flag))
                  fresh_world).2 = Raise (KeyError "use_local_model"))
    by (vm_compute; reflexivity).
  rewrite H in Hr; [discriminate Hr|].
  intros m (Hm & _ & v & Hv & _). injection Hm as <-.
  vm_compute in Hv. discriminate Hv.
Qed.

(** C1, amended. Every run of the activation hook first sets the
    download path to the models directory under the plugin path and then
    loads the settings. It calls get_instance at most once, and exactly
    once, with the loaded mapping, if and only if that mapping is
    non-empty and its use-local-model flag is true. When the loader
    yields nothing, an empty mapping, or a mapping whose flag is present
    and false, the hook makes no call and returns without raising. The
    download path is set in every case. *)
Theorem activated_contract outcome (pl : Plugin) (w : World) :
  let dir := PathDiv (Path (path pl)) "models" in
  let run := activated outcome pl w in
  exists calls : list (gmap string PyVal),
    download_path run.1 = Some dir /\
    events run.1 =
      (events w ++ SetDownloadPath dir :: LoadSettings :: map GetInstance calls)%list /\
    (length calls <= 1)%nat /\
    (forall m, calls = [m] <-> flag_set (load_settings pl) m) /\
    (flag_clear (load_settings pl) -> calls = [] /\ run.2 = Return tt).
Proof.
  intros dir run. subst run. rewrite activated_unfold. fold dir.
  destruct (after_load_cases outcome dir (load_settings pl) w)
    as [(Hc & ->)|[(m & Hl & Hne & Hk & ->)|(m & Hs & ->)]]; cbn [fst snd download_path events].
  - exists []. split_and!; [done | done | simpl; lia | | done].
    intros m. split; [discriminate|].
    intros Hs. exfalso. by eapply flag_set_not_clear.
  - exists []. split_and!; [done | done | simpl; lia | | ].
    + intros m'. split; [discriminate|].
      intros (Hl' & _ & v & Hv & _). rewrite Hl in Hl'. injection Hl' as <-.
      congruence.
    + intros [H|[H|(m' & v & H & Hv & _)]]; rewrite Hl in H.
      * discriminate.
      * injection H as ->. by exfalso.
      * injection H as <-. congruence.
  - exists [m]. split_and!; [done | done | simpl; lia | | ].
    + intros m'. split.
      * intros [= <-]. exact Hs.
      * intros Hs'. by rewrite (flag_set_unique _ _ _ Hs Hs').
    + intros Hc. exfalso. by eapply flag_set_not_clear.
Qed.

Lemma activated_contract_witness :
  (activated provider_ok (plugin_with None) fresh_world).2 = Return tt.
Proof.
  destruct (activated_contract provider_ok (plugin_with None) fresh_world)
    as (calls & _ & _ & _ & _ & Hclear).
  apply Hclear. left. reflexivity.
Defined.

(** The three activation scenarios of the specification, run. *)
Example activated_local_base :
  activated provider_ok (plugin_with (Some settings_local_base)) fresh_world =
  ({| download_path := Some (PathDiv (Path plugin_dir) "models");
      events := [SetDownloadPath (PathDiv (Path plugin_dir) "models");
                 LoadSettings; GetInstance settings_local_base] |},
   Return tt).
Proof. vm_compute. reflexivity. Qed.

Example activated_no_settings :
  acquisitions (events (activated provider_ok (plugin_with None) fresh_world).1) = [].
Proof. vm_compute. reflexivity. Qed.

Example activated_online_mode :
  acquisitions (events (activated provider_ok
    (plugin_with (Some {[ "use_local_model" := PBool false ]})) fresh_world).1) = [].
Proof. vm_compute. reflexivity. Qed.

(** C7. The two hooks behave alike: whenever the registry resolves to a
    plugin with the same path and the same loaded settings as the plugin
    handed to the activation hook, both hooks leave the same download
    path (the models directory under that path), make the same calls
    with the same arguments and end the same way, from every starting
    state and for every behaviour of the model provider. *)
Theorem hooks_agree outcome (pl : Plugin) (mh : MadHatter) (cat : Cat) (w : World) :
  path (get_plugin mh) = path pl ->
  load_settings (get_plugin (mad_hatter cat)) = load_settings pl ->
  after_cat_bootstrap outcome mh cat w = activated outcome pl w /\
  download_path (activated outcome pl w).1 =
    Some (PathDiv (Path (path pl)) "models").
Proof.
  intros Hpath Hload.
  rewrite after_cat_bootstrap_unfold, activated_unfold, Hpath, Hload.
  split; [reflexivity|].
  destruct (after_load_cases outcome (PathDiv (Path (path pl)) "models")
              (load_settings pl) w)
    as [(_ & ->)|[(m & _ & _ & _ & ->)|(m & _ & ->)]]; reflexivity.
Qed.

Lemma hooks_agree_witness :
  after_cat_bootstrap provider_ok
    {| get_plugin := plugin_with (Some settings_local_base) |}
    {| mad_hatter := {| get_plugin := plugin_with (Some settings_local_base) |} |}
    fresh_world =
  activated provider_ok (plugin_with (Some settings_local_base)) fresh_world.
Proof.
  apply (hooks_agree provider_ok (plugin_with (Some settings_local_base))
           {| get_plugin := plugin_with (Some settings_local_base) |}
           {| mad_hatter := {| get_plugin := plugin_with (Some settings_local_base) |} |}
           fresh_world); reflexivity.
Defined.

(** C10. Both hooks index the loaded mapping itself. For every
    non-empty mapping the loader yields, a hook that ends without error
    found the key use_local_model in it; when the key is missing the
    hook raises KeyError for that key, after the download path is set and
    without any call to get_instance. *)
Theorem missing_flag_raises outcome (w : World) (m : gmap string PyVal) :
  m <> ∅ ->
  (forall pl : Plugin,
     load_settings pl = Some m ->
     let run := activated outcome pl w in
     (run.2 = Return tt -> is_Some (m !! "use_local_model")) /\
     (m !! "use_local_model" = None ->
      run.2 = Raise (KeyError "use_local_model") /\
      acquisitions (events run.1) = acquisitions (events w) /\
      download_path run.1 = Some (PathDiv (Path (path pl)) "models"))) /\
  (forall (mh : MadHatter) (cat : Cat),
     load_settings (get_plugin (mad_hatter cat)) = Some m ->
     let run := after_cat_bootstrap outcome mh cat w in
     (run.2 = Return tt -> is_Some (m !! "use_local_model")) /\
     (m !! "use_local_model" = None ->
      run.2 = Raise (KeyError "use_local_model") /\
      acquisitions (events run.1) = acquisitions (events w) /\
      download_path run.1 =
        Some (PathDiv (Path (path (get_plugin mh))) "models"))).
Proof.
  intros Hne.
  assert (Hkey : forall dir,
    let run := after_load outcome dir (Some m) w in
    (run.2 = Return tt -> is_Some (m !! "use_local_model")) /\
    (m !! "use_local_model" = None ->
     run.2 = Raise (KeyError "use_local_model") /\
     acquisitions (events run.1) = acquisitions (events w) /\
     download_path run.1 = Some dir)).
  { intros dir run. subst run. unfold after_load.
    rewrite bool_decide_eq_false_2 by exact Hne. unfold flag_key.
    destruct (m !! "use_local_model") as [v|]; split; eauto; try discriminate.
    intros _. cbn [fst snd events download_path]. split_and!; try done.
    unfold acquisitions. rewrite omap_app. cbn. by rewrite app_nil_r. }
  split.
  - intros pl Hl run. subst run. rewrite activated_unfold, Hl. apply Hkey.
  - intros mh cat Hl run. subst run.
    rewrite after_cat_bootstrap_unfold, Hl. apply Hkey.
Qed.

Lemma missing_flag_raises_witness :
  (activated provider_ok (plugin_with (Some settings_without_flag))
     fresh_world).2 = Raise (KeyError "use_local_model").
Proof.
  apply (proj1 (missing_flag_raises provider_ok fresh_world settings_without_flag
                  ltac:(vm_compute; discriminate))
           (plugin_with (Some settings_without_flag)) eq_refl).
  vm_compute. reflexivity.
Defined.

(** ** Construction: further properties *)

(** X1. Every record that was constructed keeps the two cross-field
    invariants: a record with model-size OTHER has a non-empty custom
    path, and a record in online mode has a non-empty api-key. *)
Theorem constructed_invariants (p : Payload) (s : Settings) :
  Settings_construct p = Return s ->
  (w_model_size s = OTHER -> w_model_path_or_id s <> EmptyString) /\
  (use_local_model s = false -> get_secret_value (api_key s) <> EmptyString).
Proof.
  intros Hs. apply construct_Return_inv in Hs as (_ & _ & HA & HB).
  split.
  - intros Hsz Hpath.
    assert (violates_model_path_rule s = true)
      by (apply violates_model_path_rule_true; auto).
    congruence.
  - intros Hu Hk.
    assert (violates_api_key_rule s = true)
      by (apply violates_api_key_rule_true; auto).
    congruence.
Qed.

Lemma constructed_invariants_witness :
  w_model_path_or_id (fields_of gpu_payload) <> EmptyString.
Proof.
  apply (proj1 (constructed_invariants gpu_payload (fields_of gpu_payload)
                  eq_refl)).
  reflexivity.
Defined.

(** X2. For a payload whose values have the declared types (each enum
    field holds a member of its enum), a construction succeeds exactly
    when a given worker-count is at least 1, the payload does not
    combine model-size OTHER with an empty custom path, and it does not
    combine online mode with an empty api-key; the record it returns is
    then the one of the field stage. *)
Theorem construct_succeeds_iff (p : Payload) :
  Settings_construct p = Return (fields_of p) <->
  (forall n, given_n_workers p = Some n -> 1 <= n) /\
  ~ (w_model_size (fields_of p) = OTHER /\
     w_model_path_or_id (fields_of p) = EmptyString) /\
  ~ (use_local_model (fields_of p) = false /\
     get_secret_value (api_key (fields_of p)) = EmptyString).
Proof.
  rewrite <- field_errors_nil, <- violates_model_path_rule_true,
    <- violates_api_key_rule_true, construct_unfold.
  destruct (field_errors p) as [|e errs].
  - destruct (violates_model_path_rule (fields_of p)).
    { split; [discriminate | intros (_ & H & _); by destruct H]. }
    destruct (violates_api_key_rule (fields_of p)).
    { split; [discriminate | intros (_ & _ & H); by destruct H]. }
    split; [intros _; split_and!; [done | discriminate | discriminate] | done].
  - split; [discriminate | intros (H & _); discriminate H].
Qed.

Lemma construct_succeeds_iff_witness :
  Settings_construct gpu_payload = Return (fields_of gpu_payload).
Proof.
  apply (proj2 (construct_succeeds_iff gpu_payload)).
  split_and!.
  - intros n Hn. injection Hn as <-. lia.
  - intros [_ H]. discriminate H.
  - intros [H _]. discriminate H.
Defined.

(** X3. For payloads whose values have the declared types (each enum
    field holds a member of its enum), no choice of language, device and
    compute type, and no combination of them, is a reason to reject: two
    such payloads that agree on the mode, the api-key, the model size,
    the worker count and the custom path succeed together, and fail
    together with the same error. *)
Theorem unchecked_fields_irrelevant (p q : Payload) :
  same_checked_fields p q ->
  (Settings_construct p = Return (fields_of p) <->
   Settings_construct q = Return (fields_of q)) /\
  (forall e, Settings_construct p = Raise e <-> Settings_construct q = Raise e).
Proof.
  intros (Hu & Hk & Hsz & Hn & Hpath).
  assert (Hf : field_errors p = field_errors q)
    by (unfold field_errors; by rewrite Hn).
  assert (HA : violates_model_path_rule (fields_of p) =
               violates_model_path_rule (fields_of q))
    by (unfold violates_model_path_rule, fields_of; cbn; by rewrite Hsz, Hpath).
  assert (HB : violates_api_key_rule (fields_of p) =
               violates_api_key_rule (fields_of q))
    by (unfold violates_api_key_rule, fields_of; cbn; by rewrite Hu, Hk).
  rewrite !construct_unfold, Hf, HA, HB.
  destruct (field_errors q); [|split; [split; discriminate | done]].
  destruct (violates_model_path_rule (fields_of q));
    [split; [split; discriminate | done]|].
  destruct (violates_api_key_rule (fields_of q));
    [split; [split; discriminate | done]|].
  split; [done | split; discriminate].
Qed.

Lemma unchecked_fields_irrelevant_witness :
  Settings_construct gpu_payload = Return (fields_of gpu_payload) <->
  Settings_construct
    {| given_language := None; given_use_local_model := Some true;
       given_api_key := Some "sk-test"; given_w_model_size := Some OTHER;
       given_device := Some CPU; given_n_workers := Some 4;
       given_compute_type := None;
       given_w_model_path_or_id := Some "openai/whisper-small" |} =
  Return (fields_of
    {| given_language := None; given_use_local_model := Some true;
       given_api_key := Some "sk-test"; given_w_model_size := Some OTHER;
       given_device := Some CPU; given_n_workers := Some 4;
       given_compute_type := None;
       given_w_model_path_or_id := Some "openai/whisper-small" |}).
Proof.
  apply (unchecked_fields_irrelevant gpu_payload).
  repeat split; reflexivity.
Defined.

(** X4. A field that the chosen mode does not use is not checked: in
    offline mode every api-key, the empty one too, leaves the outcome
    of the construction as it is, and with a model size other than OTHER
    so does every custom path. *)
Theorem unused_field_not_checked (p : Payload) :
  (use_local_model (fields_of p) = true ->
   forall key,
     (Settings_construct (with_api_key p key) =
        Return (fields_of (with_api_key p key)) <->
      Settings_construct p = Return (fields_of p)) /\
     (forall e, Settings_construct (with_api_key p key) = Raise e <->
                Settings_construct p = Raise e)) /\
  (w_model_size (fields_of p) <> OTHER ->
   forall model,
     (Settings_construct (with_model_path p model) =
        Return (fields_of (with_model_path p model)) <->
      Settings_construct p = Return (fields_of p)) /\
     (forall e, Settings_construct (with_model_path p model) = Raise e <->
                Settings_construct p = Raise e)).
Proof.
  split.
  - intros Hu key.
    assert (HA : violates_model_path_rule (fields_of (with_api_key p key)) =
                 violates_model_path_rule (fields_of p)) by reflexivity.
    assert (HB : violates_api_key_rule (fields_of (with_api_key p key)) = false)
      by (unfold violates_api_key_rule; cbn in *; by rewrite Hu).
    assert (HB' : violates_api_key_rule (fields_of p) = false)
      by (unfold violates_api_key_rule; by rewrite Hu).
    rewrite !construct_unfold, HA, HB, HB'.
    change (field_errors (with_api_key p key)) with (field_errors p).
    destruct (field_errors p); [|split; [split; discriminate | done]].
    destruct (violates_model_path_rule (fields_of p));
      [split; [split; discriminate | done]|].
    split; [done | split; discriminate].
  - intros Hsz model.
    assert (HA : violates_model_path_rule (fields_of (with_model_path p model))
                 = false).
    { unfold violates_model_path_rule. cbn in *.
      by rewrite bool_decide_eq_false_2. }
    assert (HA' : violates_model_path_rule (fields_of p) = false)
      by (unfold violates_model_path_rule; by rewrite bool_decide_eq_false_2).
    assert (HB : violates_api_key_rule (fields_of (with_model_path p model)) =
                 violates_api_key_rule (fields_of p)) by reflexivity.
    rewrite !construct_unfold, HA, HA', HB.
    change (field_errors (with_model_path p model)) with (field_errors p).
    destruct (field_errors p); [|split; [split; discriminate | done]].
    destruct (violates_api_key_rule (fields_of p));
      [split; [split; discriminate | done]|].
    split; [done | split; discriminate].
Qed.

Lemma unused_field_not_checked_witness :
  Settings_construct (with_api_key empty_payload EmptyString) =
    Return (fields_of (with_api_key empty_payload EmptyString)) /\
  Settings_construct (with_model_path empty_payload "unused/model") =
    Return (fields_of (with_model_path empty_payload "unused/model")).
Proof.
  split.
  - apply (proj1 (proj1 (unused_field_not_checked empty_payload) eq_refl
                    EmptyString)).
    reflexivity.
  - apply (proj1 (proj2 (unused_field_not_checked empty_payload)
                    ltac:(discriminate) "unused/model")).
    reflexivity.
Defined.

(** X5. A constructed record keeps a given api-key as it was given:
    [get_secret_value] returns the key unchanged, and the [str] form of
    the field is empty exactly when the key is empty. *)
Theorem api_key_kept (p : Payload) (key : string) (s : Settings) :
  Settings_construct (with_api_key p key) = Return s ->
  get_secret_value (api_key s) = key /\
  (ApiKey_str (api_key s) = EmptyString <-> key = EmptyString).
Proof.
  intros Hs. apply construct_Return_inv in Hs as (-> & _).
  cbn [fields_of with_api_key api_key given_api_key get_secret_value ApiKey_str].
  split; [reflexivity|].
  unfold SecretStr_display. destruct key; cbn; split; done.
Qed.

Lemma api_key_kept_witness :
  get_secret_value (api_key (fields_of (with_api_key gpu_payload "sk-live"))) =
  "sk-live".
Proof.
  apply (proj1 (api_key_kept gpu_payload "sk-live"
                  (fields_of (with_api_key gpu_payload "sk-live")) eq_refl)).
Defined.

(** X6. A construction that fails raises a ValidationError with exactly
    one entry: the broken bound of a given worker-count below 1, or the
    message of rule A, or the message of rule B. It never reports two
    entries and never raises anything else. *)
Theorem failure_has_one_entry (p : Payload) (e : Exception) :
  Settings_construct p = Raise e ->
  exists d, e = ValidationError [d] /\
    ((exists n, given_n_workers p = Some n /\ n < 1 /\
                d = greater_than_equal "n_workers" 1 n) \/
     d = value_error model_path_required \/
     d = value_error api_key_required).
Proof.
  rewrite construct_unfold. unfold field_errors.
  destruct (given_n_workers p) as [n|] eqn:Hn.
  - destruct (Z.ltb_spec n 1) as [Hlt|Hge].
    + intros Heq. injection Heq as <-. eexists. split; [reflexivity|].
      left. eauto.
    + destruct (violates_model_path_rule (fields_of p));
        [|destruct (violates_api_key_rule (fields_of p))];
        intros Heq; try discriminate Heq; injection Heq as <-;
        eexists; split; try reflexivity; auto.
  - destruct (violates_model_path_rule (fields_of p));
      [|destruct (violates_api_key_rule (fields_of p))];
      intros Heq; try discriminate Heq; injection Heq as <-;
      eexists; split; try reflexivity; auto.
Qed.

Lemma failure_has_one_entry_witness :
  exists d, ValidationError [greater_than_equal "n_workers" 1 0] =
            ValidationError [d] /\
    ((exists n, given_n_workers (both_rules_payload (Some 0)) = Some n /\
                n < 1 /\ d = greater_than_equal "n_workers" 1 n) \/
     d = value_error model_path_required \/
     d = value_error api_key_required).
Proof.
  apply (failure_has_one_entry (both_rules_payload (Some 0))). reflexivity.
Defined.

(** ** The literal enums *)

(** X7. In each of the enums ModelSize, Device and ComputeType the
    lookup by value is the inverse of taking the value: looking up the
    value of a member finds that member, and a lookup that finds a
    member was given that member's value. So no two members share a
    value. *)
Theorem enum_value_round_trip :
  ((forall m, ModelSize_of_value (ModelSize_value m) = Some m) /\
   (forall v m, ModelSize_of_value v = Some m -> ModelSize_value m = v)) /\
  ((forall d, Device_of_value (Device_value d) = Some d) /\
   (forall v d, Device_of_value v = Some d -> Device_value d = v)) /\
  ((forall c, ComputeType_of_value (ComputeType_value c) = Some c) /\
   (forall v c, ComputeType_of_value v = Some c -> ComputeType_value c = v)).
Proof.
  split_and!.
  - intros []; reflexivity.
  - intros v m H. apply find_some in H as [_ H]. by apply bool_decide_eq_true in H.
  - intros []; reflexivity.
  - intros v d H. apply find_some in H as [_ H]. by apply bool_decide_eq_true in H.
  - intros []; reflexivity.
  - intros v c H. apply find_some in H as [_ H]. by apply bool_decide_eq_true in H.
Qed.

Lemma enum_value_round_trip_witness :
  ModelSize_value OTHER = "Other" /\ Device_value CUDA = "cuda" /\
  ComputeType_value INT8_FLOAT16 = "int8_float16".
Proof.
  destruct enum_value_round_trip as ((_ & HM) & (_ & HD) & (_ & HC)).
  split_and!; [apply HM | apply HD | apply HC]; reflexivity.
Defined.

(** ** The hooks: further properties *)


(** X8. The bootstrap hook keeps the same contract as the activation
    hook, with the path taken from the plugin the registry singleton
    resolves to and the settings from the plugin reached through [cat]:
    it sets the download path, then loads the settings, then calls
    get_instance at most once, and exactly once, with the loaded mapping,
    if and only if that mapping is non-empty and its flag is true; on
    nothing, an empty mapping or a false flag it makes no call and
    returns. *)
Theorem after_cat_bootstrap_contract outcome (mh : MadHatter) (cat : Cat) (w : World) :
  let dir := PathDiv (Path (path (get_plugin mh))) "models" in
  let loaded := load_settings (get_plugin (mad_hatter cat)) in
  let run := after_cat_bootstrap outcome mh cat w in
  exists calls : list (gmap string PyVal),
    download_path run.1 = Some dir /\
    events run.1 =
      (events w ++ SetDownloadPath dir :: LoadSettings :: map GetInstance calls)%list /\
    (length calls <= 1)%nat /\
    (forall m, calls = [m] <-> flag_set loaded m) /\
    (flag_clear loaded -> calls = [] /\ run.2 = Return tt).
Proof.
  intros dir loaded run. subst run. rewrite after_cat_bootstrap_unfold.
  fold dir loaded.
  destruct (after_load_cases outcome dir loaded w)
    as [(Hc & ->)|[(m & Hl & Hne & Hk & ->)|(m & Hs & ->)]];
    cbn [fst snd download_path events].
  - exists []. split_and!; [done | done | simpl; lia | | done].
    intros m. split; [discriminate|].
    intros Hs. exfalso. by eapply flag_set_not_clear.
  - exists []. split_and!; [done | done | simpl; lia | | ].
    + intros m'. split; [discriminate|].
      intros (Hl' & _ & v & Hv & _). rewrite Hl in Hl'. injection Hl' as <-.
      congruence.
    + intros [H|[H|(m' & v & H & Hv & _)]]; rewrite Hl in H.
      * discriminate.
      * injection H as ->. by exfalso.
      * injection H as <-. congruence.
  - exists [m]. split_and!; [done | done | simpl; lia | | ].
    + intros m'. split.
      * intros [= <-]. exact Hs.
      * intros Hs'. by rewrite (flag_set_unique _ _ _ Hs Hs').
    + intros Hc. exfalso. by eapply flag_set_not_clear.
Qed.

Lemma after_cat_bootstrap_contract_witness :
  (after_cat_bootstrap provider_ok
     {| get_plugin := plugin_with None |}
     {| mad_hatter := {| get_plugin := plugin_with (Some ∅) |} |}
     fresh_world).2 = Return tt.
Proof.
  destruct (after_cat_bootstrap_contract provider_ok
              {| get_plugin := plugin_with None |}
              {| mad_hatter := {| get_plugin := plugin_with (Some ∅) |} |}
              fresh_world)
    as (calls & _ & _ & _ & _ & Hclear).
  apply Hclear. right; left. reflexivity.
Defined.

(** X9. Neither hook catches what get_instance raises. When the loaded
    mapping is non-empty and its flag is true, the hook ends exactly as
    get_instance ends for that mapping, so an error of the provider
    leaves the hook as it is; by then the download path is set and the
    call is made. *)
Theorem provider_outcome_propagates outcome (w : World) (m : gmap string PyVal) :
  (forall pl : Plugin,
     flag_set (load_settings pl) m ->
     activated outcome pl w =
       ({| download_path := Some (PathDiv (Path (path pl)) "models");
           events := events w ++
             [SetDownloadPath (PathDiv (Path (path pl)) "models");
              LoadSettings; GetInstance m] |},
        outcome m)) /\
  (forall (mh : MadHatter) (cat : Cat),
     flag_set (load_settings (get_plugin (mad_hatter cat))) m ->
     after_cat_bootstrap outcome mh cat w =
       ({| download_path := Some (PathDiv (Path (path (get_plugin mh))) "models");
           events := events w ++
             [SetDownloadPath (PathDiv (Path (path (get_plugin mh))) "models");
              LoadSettings; GetInstance m] |},
        outcome m)).
Proof.
  assert (Hgen : forall dir loaded,
    flag_set loaded m ->
    after_load outcome dir loaded w =
      ({| download_path := Some dir;
          events := events w ++ [SetDownloadPath dir; LoadSettings; GetInstance m] |},
       outcome m)).
  { intros dir loaded (-> & Hne & v & Hv & Ht). unfold after_load.
    rewrite bool_decide_eq_false_2 by exact Hne. rewrite Hv, Ht.
    cbn. by rewrite <- app_assoc. }
  split.
  - intros pl Hs. rewrite activated_unfold. by apply Hgen.
  - intros mh cat Hs. rewrite after_cat_bootstrap_unfold. by apply Hgen.
Qed.

Lemma provider_outcome_propagates_witness :
  (activated provider_broken (plugin_with (Some settings_local_base))
     fresh_world).2 = Raise (ProviderError "model could not be loaded").
Proof.
  rewrite (proj1 (provider_outcome_propagates provider_broken fresh_world
                    settings_local_base)
             (plugin_with (Some settings_local_base))).
  - reflexivity.
  - split; [reflexivity|]. split; [vm_compute; discriminate|].
    exists (PBool true). split; vm_compute; reflexivity.
Defined.


(** ** The language codes *)

Lemma ascii_lower_upper (c : ascii) : ascii_lower (ascii_upper c) = ascii_lower c.
Proof. destruct c as [[] [] [] [] [] [] [] []]; reflexivity. Qed.

Lemma ascii_upper_lower (c : ascii) : ascii_upper (ascii_lower c) = ascii_upper c.
Proof. destruct c as [[] [] [] [] [] [] [] []]; reflexivity. Qed.

Lemma lower_upper (s : string) : lower (upper s) = lower s.
Proof. induction s as [|c s IH]; simpl; [|rewrite ascii_lower_upper, IH]; done. Qed.

Lemma upper_lower (s : string) : upper (lower s) = upper s.
Proof. induction s as [|c s IH]; simpl; [|rewrite ascii_upper_lower, IH]; done. Qed.

Lemma dict_get_set_eq (d : list (string * string)) (k v : string) :
  dict_get (dict_set d k v) k = Some v.
Proof.
  induction d as [|[k' v'] d IH]; simpl.
  - by rewrite decide_True.
  - destruct (decide (k' = k)) as [->|Hne]; simpl.
    + by rewrite decide_True.
    + by rewrite decide_False.
Qed.

Lemma dict_get_set_ne (d : list (string * string)) (k v k' : string) :
  k <> k' -> dict_get (dict_set d k v) k' = dict_get d k'.
Proof.
  intros Hne. induction d as [|[k0 v0] d IH]; simpl.
  - by rewrite decide_False.
  - destruct (decide (k0 = k)) as [->|Hne0]; simpl.
    + by rewrite !decide_False.
    + destruct (decide (k0 = k')); [done | apply IH].
Qed.

Lemma dict_set_elem (d : list (string * string)) (k v k' v' : string) :
  (k', v') ∈ dict_set d k v -> (k' = k /\ v' = v) \/ (k', v') ∈ d.
Proof.
  induction d as [|[k0 v0] d IH]; simpl.
  - intros H. apply list_elem_of_singleton in H. injection H as -> ->. by left.
  - destruct (decide (k0 = k)) as [->|Hne]; intros H;
      apply elem_of_cons in H as [H|H].
    + injection H as -> ->. by left.
    + right. by apply elem_of_cons; right.
    + right. apply elem_of_cons; by left.
    + destruct (IH H) as [?|?]; [by left | right; apply elem_of_cons; by right].
Qed.

Lemma dict_set_keys (d : list (string * string)) (k v k' : string) :
  k' ∈ (dict_set d k v).*1 <-> k' = k \/ k' ∈ d.*1.
Proof.
  induction d as [|[k0 v0] d IH]; simpl.
  - rewrite list_elem_of_singleton. split; [by left | intros [?|H]; [done|]].
    by apply elem_of_nil in H.
  - destruct (decide (k0 = k)) as [->|Hne]; simpl; rewrite !elem_of_cons.
    + tauto.
    + rewrite IH. tauto.
Qed.

Lemma dict_set_NoDup (d : list (string * string)) (k v : string) :
  NoDup d.*1 -> NoDup (dict_set d k v).*1.
Proof.
  induction d as [|[k0 v0] d IH]; simpl; intros Hnd.
  - apply NoDup_singleton.
  - apply NoDup_cons in Hnd as [Hnotin Hnd].
    destruct (decide (k0 = k)) as [->|Hne]; simpl; apply NoDup_cons.
    + done.
    + split; [|by apply IH]. rewrite dict_set_keys. intros [?|?]; done.
Qed.

Lemma dict_get_elem (d : list (string * string)) (k v : string) :
  dict_get d k = Some v -> (k, v) ∈ d.
Proof.
  induction d as [|[k0 v0] d IH]; simpl; [discriminate|].
  destruct (decide (k0 = k)) as [->|Hne].
  - intros [= ->]. apply elem_of_cons; by left.
  - intros H. apply elem_of_cons; right. by apply IH.
Qed.

(** What the comprehension has built after any prefix of the table:
    the keys are distinct, every item stems from a language with a
    code, and every such language is found under its upper-case code. *)
Lemma language_codes_inv (languages : list Language) :
  NoDup (language_codes languages).*1 /\
  (forall k v, (k, v) ∈ language_codes languages ->
     exists lang code, lang ∈ languages /\ alpha_2 lang = Some code /\
                       k = upper code /\ v = lower code) /\
  (forall lang code, lang ∈ languages -> alpha_2 lang = Some code ->
     dict_get (language_codes languages) (upper code) = Some (lower code)).
Proof.
  unfold language_codes.
  induction languages as [|lang0 languages IH] using rev_ind.
  - simpl. split_and!; [apply NoDup_nil_2 | |].
    + intros k v H. by apply elem_of_nil in H.
    + intros lang code H. by apply elem_of_nil in H.
  - rewrite foldl_app. simpl.
    destruct IH as (Hnd & Hsound & Hfound).
    destruct (alpha_2 lang0) as [c0|] eqn:H0.
    + split_and!.
      * by apply dict_set_NoDup.
      * intros k v H. apply dict_set_elem in H as [[-> ->]|H].
        -- exists lang0, c0. split_and!; try done.
           apply elem_of_app; right. by apply list_elem_of_singleton.
        -- destruct (Hsound k v H) as (lang & code & Hin & ?).
           exists lang, code. split; [|done]. apply elem_of_app; by left.
      * intros lang code Hin Hcode.
        destruct (decide (upper c0 = upper code)) as [Heq|Hne].
        -- rewrite <- Heq, dict_get_set_eq.
           by rewrite <- (lower_upper c0), Heq, lower_upper.
        -- rewrite dict_get_set_ne by done.
           apply elem_of_app in Hin as [Hin|Hin]; [by eapply Hfound|].
           apply list_elem_of_singleton in Hin. subst lang. congruence.
    + split_and!; [done | |].
      * intros k v H. destruct (Hsound k v H) as (lang & code & Hin & ?).
        exists lang, code. split; [|done]. apply elem_of_app; by left.
      * intros lang code Hin Hcode.
        apply elem_of_app in Hin as [Hin|Hin]; [by eapply Hfound|].
        apply list_elem_of_singleton in Hin. subst lang. congruence.
Qed.

(** The attribute access on the members is the lookup in the dict. *)
Lemma LanguageCode_by_name_dict (d : list (string * string)) (name : string) :
  LanguageCode_by_name
    (map (fun kv => {| lc_name := kv.1; lc_value := kv.2 |}) d) name =
  (fun v => {| lc_name := name; lc_value := v |}) <$> dict_get d name.
Proof.
  unfold LanguageCode_by_name.
  induction d as [|[k v] d IH]; simpl; [done|].
  destruct (decide (k = name)) as [->|Hne].
  - by rewrite bool_decide_eq_true_2.
  - by rewrite bool_decide_eq_false_2.
Qed.

Lemma values_NoDup (d : list (string * string)) :
  NoDup d.*1 -> (forall k v, (k, v) ∈ d -> k = upper v) -> NoDup d.*2.
Proof.
  induction d as [|[k v] d IH]; simpl; intros Hnd Hkv; [apply NoDup_nil_2|].
  apply NoDup_cons in Hnd as [Hnotin Hnd]. apply NoDup_cons. split.
  - intros Hin. apply list_elem_of_fmap in Hin as ([k' v'] & Hv & Hin).
    simpl in Hv. subst v'. apply Hnotin.
    assert (k' = upper v) by (apply Hkv; apply elem_of_cons; by right).
    assert (k = upper v) by (apply Hkv; apply elem_of_cons; by left).
    subst k k'. apply list_elem_of_fmap. by exists (upper v, v).
  - apply IH; [done|]. intros k' v' Hin. apply Hkv. apply elem_of_cons; by right.
Qed.

(** X11. For a table of ASCII codes, every item of the language codes
    stems from a language that has a two-letter code, with the upper-case
    code as key and the lower-case code as value; languages without a
    code add nothing. So each value is the lower case of its key and
    each key the upper case of its value. *)
Theorem language_codes_items (languages : list Language) (k v : string) :
  ascii_table languages = true ->
  (k, v) ∈ language_codes languages ->
  (exists lang code, lang ∈ languages /\ alpha_2 lang = Some code /\
                     k = upper code /\ v = lower code) /\
  v = lower k /\ k = upper v.
Proof.
  intros _ Hin.
  destruct (language_codes_inv languages) as (_ & Hsound & _).
  destruct (Hsound k v Hin) as (lang & code & Hl & Hc & -> & ->).
  split; [by exists lang, code|].
  by rewrite lower_upper, upper_lower.
Qed.

Lemma language_codes_items_witness :
  "it" = lower "IT" /\ "IT" = upper "it".
Proof.
  apply (language_codes_items sample_languages "IT" "it"); [reflexivity|].
  vm_compute. apply elem_of_cons; right. apply elem_of_cons; by left.
Defined.

(** X12. For a table whose codes are made of ASCII letters, as the ISO
    639-1 codes are, every language of the table that has a code is
    found: the language codes map its upper-case code to its lower-case
    code, whatever other languages follow, and the enum has a member of
    that name with that value. *)
Theorem language_codes_lookup (languages : list Language) (lang : Language) (code : string) :
  letter_table languages = true ->
  lang ∈ languages -> alpha_2 lang = Some code ->
  dict_get (language_codes languages) (upper code) = Some (lower code) /\
  LanguageCode_by_name (LanguageCode_members languages) (upper code) =
    Some {| lc_name := upper code; lc_value := lower code |}.
Proof.
  intros _ Hin Hcode.
  destruct (language_codes_inv languages) as (_ & _ & Hfound).
  pose proof (Hfound lang code Hin Hcode) as Hget.
  split; [done|].
  unfold LanguageCode_members. by rewrite LanguageCode_by_name_dict, Hget.
Qed.

Lemma language_codes_lookup_witness :
  dict_get (language_codes sample_languages) (upper "it") = Some (lower "it") /\
  LanguageCode_by_name (LanguageCode_members sample_languages) (upper "it") =
    Some {| lc_name := upper "it"; lc_value := lower "it" |}.
Proof.
  apply (language_codes_lookup sample_languages {| alpha_2 := Some "it" |} "it");
    [reflexivity | | reflexivity].
  do 2 (apply elem_of_cons; right). apply elem_of_cons; by left.
Defined.

(** X13. For a table of ASCII codes, the LanguageCode enum has no
    duplicate: no two members share a name, and no two members share a
    value, so no member is an alias of another. *)
Theorem LanguageCode_no_alias (languages : list Language) :
  ascii_table languages = true ->
  NoDup (lc_name <$> LanguageCode_members languages) /\
  NoDup (lc_value <$> LanguageCode_members languages).
Proof.
  intros _.
  destruct (language_codes_inv languages) as (Hnd & Hsound & _).
  unfold LanguageCode_members.
  rewrite <- !list_fmap_compose.
  split.
  - exact Hnd.
  - apply (values_NoDup _ Hnd). intros k v Hin.
    destruct (Hsound k v Hin) as (lang & code & _ & _ & -> & ->).
    by rewrite upper_lower.
Qed.

Lemma LanguageCode_no_alias_witness :
  NoDup (lc_name <$> LanguageCode_members sample_languages) /\
  NoDup (lc_value <$> LanguageCode_members sample_languages).
Proof. apply (LanguageCode_no_alias sample_languages). reflexivity. Defined.

(** X14. The default language exists exactly when the table has the
    code for English. For a table whose codes are made of ASCII letters,
    as the ISO 639-1 codes are, the attribute EN of the enum is defined
    if and only if some language of the table has a code whose upper
    case is EN, and the member it names then has the value en. *)
Theorem LanguageCode_EN_member (languages : list Language) :
  letter_table languages = true ->
  ((exists lang code, lang ∈ languages /\ alpha_2 lang = Some code /\
                      upper code = "EN") <->
   LanguageCode_by_name (LanguageCode_members languages) "EN" = Some EN) /\
  (forall m, LanguageCode_by_name (LanguageCode_members languages) "EN" = Some m ->
             m = EN).
Proof.
  intros _.
  destruct (language_codes_inv languages) as (_ & Hsound & Hfound).
  unfold LanguageCode_members. rewrite LanguageCode_by_name_dict.
  assert (Hval : forall v, dict_get (language_codes languages) "EN" = Some v ->
                           v = "en" /\
                           exists lang code, lang ∈ languages /\
                             alpha_2 lang = Some code /\ upper code = "EN").
  { intros v Hget. apply dict_get_elem in Hget.
    destruct (Hsound _ _ Hget) as (lang & code & Hin & Hc & Hk & ->).
    split; [by rewrite <- (lower_upper code), <- Hk | eauto]. }
  split; [split|].
  - intros (lang & code & Hin & Hc & Hk).
    pose proof (Hfound lang code Hin Hc) as Hget. rewrite Hk in Hget.
    rewrite Hget. simpl. destruct (Hval _ Hget) as [Hen _]. by rewrite Hen.
  - destruct (dict_get (language_codes languages) "EN") as [v|] eqn:Hget;
      [|discriminate]. intros _. by destruct (Hval v eq_refl) as [_ ?].
  - intros m. destruct (dict_get (language_codes languages) "EN") as [v|] eqn:Hget;
      [|discriminate]. simpl. intros [= <-].
    by destruct (Hval v eq_refl) as [-> _].
Qed.

Lemma LanguageCode_EN_member_witness :
  LanguageCode_by_name (LanguageCode_members sample_languages) "EN" = Some EN.
Proof.
  apply (proj1 (LanguageCode_EN_member sample_languages eq_refl)).
  exists {| alpha_2 := Some "en" |}, "en".
  split_and!; [apply elem_of_cons; by left | reflexivity | reflexivity].
Defined.
